(** * The conversation exchange flow of [App.tsx]

    A shallow embedding of the stateful part of the chat screen: the three
    pieces of React state ([messages], [inputText], [isLoading]), the
    asynchronous handler [handleSendMessage] and the send button that
    dispatches it, followed by the element tree the component renders
    ([App], [renderMessage], [createStyles], the two colour schemes).

    Conventions.
    - A JavaScript string is a Rocq [string] holding its UTF-8 bytes.
    - [Date.now()] and the settlement of [fetch] belong to the environment:
      they are arguments of the segments of the handler.
    - An async function is cut at its first [await]: the segment that runs
      inside the call, and the continuation that runs when the awaited
      promise settles.  The later awaits ([response.text()],
      [response.json()]) are folded into that continuation: between them the
      handler neither reads nor writes React state, and its writes are
      functional updates ([prev => ...]) that all happen after the last
      await. *)

From Stdlib Require Import String Ascii ZArith NArith List Lia Bool.
From Stdlib Require Import DecimalString DecimalZ.
From Stdlib Require QArith.
Import ListNotations.
Open Scope string_scope.

(** ** JavaScript strings *)

Module JsString.

Definition byte (c : ascii) : N := N_of_ascii c.

(** ECMAScript WhiteSpace and LineTerminator code points, by the length of
    their UTF-8 encoding.  One byte: TAB, LF, VT, FF, CR, SP. *)
Definition isWhiteSpace1 (b : N) : bool :=
  ((9 <=? b) && (b <=? 13) || (b =? 32))%N.

(** Two bytes: U+00A0. *)
Definition isWhiteSpace2 (b1 b2 : N) : bool :=
  ((b1 =? 194) && (b2 =? 160))%N.

(** Three bytes: U+1680, U+2000..U+200A, U+2028, U+2029, U+202F, U+205F,
    U+3000, U+FEFF. *)
Definition isWhiteSpace3 (b1 b2 b3 : N) : bool :=
  ((b1 =? 225) && (b2 =? 154) && (b3 =? 128)
   || (b1 =? 226) && (b2 =? 128)
      && ((128 <=? b3) && (b3 <=? 138) || (b3 =? 168) || (b3 =? 169) || (b3 =? 175))
   || (b1 =? 226) && (b2 =? 129) && (b3 =? 159)
   || (b1 =? 227) && (b2 =? 128) && (b3 =? 128)
   || (b1 =? 239) && (b2 =? 187) && (b3 =? 191))%N.

Definition isEmpty (s : string) : bool :=
  match s with EmptyString => true | String _ _ => false end.

(** [String.prototype.trimStart]. *)
Fixpoint trimStart (s : string) : string :=
  match s with
  | EmptyString => s
  | String c1 r1 =>
      if isWhiteSpace1 (byte c1) then trimStart r1 else
      match r1 with
      | EmptyString => s
      | String c2 r2 =>
          if isWhiteSpace2 (byte c1) (byte c2) then trimStart r2 else
          match r2 with
          | EmptyString => s
          | String c3 r3 =>
              if isWhiteSpace3 (byte c1) (byte c2) (byte c3)
              then trimStart r3 else s
          end
      end
  end.

(** [String.prototype.trimEnd]: the string is cut where what is left of it
    is white space only. *)
Fixpoint trimEnd (s : string) : string :=
  match s with
  | EmptyString => EmptyString
  | String c r =>
      if isEmpty (trimStart s) then EmptyString else String c (trimEnd r)
  end.

(** [String.prototype.trim]. *)
Definition trim (s : string) : string := trimEnd (trimStart s).

(** [Number.prototype.toString] on an integer (below 1e21 in absolute
    value, where JavaScript prints plain decimal digits). *)
Definition toString (n : Z) : string := NilZero.string_of_int (Z.to_int n).

(** [String.prototype.includes] and [String.prototype.startsWith], as
    propositions. *)
Definition includes (s sub : string) : Prop :=
  exists pre post, s = pre ++ sub ++ post.

Definition startsWith (s pre : string) : Prop :=
  exists post, s = pre ++ post.

(** Strings made of white space and line terminators only. *)
Inductive WhiteSpaceOnly : string -> Prop :=
| ws_empty : WhiteSpaceOnly EmptyString
| ws_one c s :
    isWhiteSpace1 (byte c) = true ->
    WhiteSpaceOnly s -> WhiteSpaceOnly (String c s)
| ws_two c1 c2 s :
    isWhiteSpace2 (byte c1) (byte c2) = true ->
    WhiteSpaceOnly s -> WhiteSpaceOnly (String c1 (String c2 s))
| ws_three c1 c2 c3 s :
    isWhiteSpace3 (byte c1) (byte c2) (byte c3) = true ->
    WhiteSpaceOnly s -> WhiteSpaceOnly (String c1 (String c2 (String c3 s))).

End JsString.
Import JsString.

(** ** JavaScript values, errors and promises *)

(** The values [response.json()] can resolve to, and [undefined], which a
    property read can give.  A number is kept by its literal: the handler
    never computes with one. *)
#[local] Unset Elimination Schemes.
Inductive jsval : Type :=
| JUndefined
| JNull
| JBool (b : bool)
| JNum (literal : string)
| JStr (s : string)
| JArr (items : list jsval)
| JObj (properties : list (string * jsval)).
#[local] Set Elimination Schemes.

(** An [Error] object; the handler reads its [message] only. *)
Record JsError : Type := mkError { message : string }.

(** A settled promise. *)
Inductive Settled (A : Type) : Type :=
| Fulfilled (a : A)
| Rejected (e : JsError).
Arguments Fulfilled {A} a.
Arguments Rejected {A} e.

(** Own property of a parsed JSON object. *)
Fixpoint getProperty (key : string) (properties : list (string * jsval)) : jsval :=
  match properties with
  | [] => JUndefined
  | (k, v) :: rest => if String.eqb k key then v else getProperty key rest
  end.

(** ** The data of the component *)

Inductive Sender : Type := user | bot.

(** [interface Message].  The declared type of [text] is [string], but the
    bot message takes [data.answer] from an untyped ([any]) parsed body, so at
    run time the field holds whatever value the body carried. *)
Record Message : Type := mkMessage {
  id : string;
  text : jsval;
  sender : Sender
}.

(** The three [useState] cells. *)
Record State : Type := mkState {
  messages : list Message;
  inputText : string;
  isLoading : bool
}.

Definition initialState : State :=
  {| messages := []; inputText := ""; isLoading := false |}.

Definition BACKEND_URL : string := "https://bsi-agent-v2-backend.onrender.com/ask".

(** The argument of [JSON.stringify] on the request. *)
Record Body : Type := mkBody {
  question : string;
  history : list Message
}.

(** The arguments of the [fetch] call. *)
Record Request : Type := mkRequest {
  url : string;
  method : string;
  headers : list (string * string);
  body : Body
}.

(** What the handler uses of a [Response]: the status, and what the body
    readers [text()] and [json()] settle to. *)
Record Response : Type := mkResponse {
  status : Z;
  response_text : Settled string;
  response_json : Settled jsval
}.

(** [Response.ok]: the status is in 200..299. *)
Definition ok (r : Response) : bool :=
  ((200 <=? status r) && (status r <=? 299))%Z.

(** ** Handler segments: React state and exceptions

    A segment of a handler runs against the current React state and either
    completes or throws; the state updates made before a throw stay. *)

Inductive Outcome (A : Type) : Type :=
| Normal (a : A)
| Thrown (e : JsError).
Arguments Normal {A} a.
Arguments Thrown {A} e.

Definition Handler (A : Type) : Type := State -> Outcome A * State.

Definition ret {A} (a : A) : Handler A := fun s => (Normal a, s).

Definition bind {A B} (m : Handler A) (k : A -> Handler B) : Handler B :=
  fun s =>
    match m s with
    | (Normal a, s') => k a s'
    | (Thrown e, s') => (Thrown e, s')
    end.

(** [throw e]. *)
Definition throw {A} (e : JsError) : Handler A := fun s => (Thrown e, s).

(** [await p] on a promise that has settled. *)
Definition await {A} (p : Settled A) : Handler A :=
  match p with
  | Fulfilled a => ret a
  | Rejected e => throw e
  end.

(** [try { body } catch (e) { handler } finally { final }]. *)
Definition tryCatchFinally {A} (body : Handler A) (handler : JsError -> Handler A)
    (final : Handler unit) : Handler A :=
  fun s =>
    let (r, s1) :=
      match body s with
      | (Normal a, s') => (Normal a, s')
      | (Thrown e, s') => handler e s'
      end in
    match final s1 with
    | (Normal _, s2) => (r, s2)
    | (Thrown e, s2) => (Thrown e, s2)
    end.

Declare Scope handler_scope.
Delimit Scope handler_scope with handler.
Notation "x <- m ;; k" := (bind m (fun x => k))
  (at level 61, m at next level, right associativity) : handler_scope.
Notation "m ;; k" := (bind m (fun _ => k))
  (at level 61, right associativity) : handler_scope.

(** The state setters, called with an updater ([setMessages(prev => ...)]) or
    with a value. *)
Definition setMessages (f : list Message -> list Message) : Handler unit :=
  fun s => (Normal tt,
            {| messages := f (messages s); inputText := inputText s;
               isLoading := isLoading s |}).

Definition setInputText (v : string) : Handler unit :=
  fun s => (Normal tt,
            {| messages := messages s; inputText := v; isLoading := isLoading s |}).

Definition setIsLoading (v : bool) : Handler unit :=
  fun s => (Normal tt,
            {| messages := messages s; inputText := inputText s; isLoading := v |}).

(** ** [handleSendMessage] *)

Section Controller.

(** The message of the [TypeError] the engine raises when a property of
    [null] is read; its wording differs between engines. *)
Variable nullReadMessage : string.

Open Scope handler_scope.

(** The property read [data.answer]: a [TypeError] on [null] and
    [undefined], the own property on an object, [undefined] on every other
    value (no prototype of a parsed value has an [answer]). *)
Definition readAnswer (data : jsval) : Handler jsval :=
  match data with
  | JUndefined | JNull => throw (mkError nullReadMessage)
  | JObj properties => ret (getProperty "answer" properties)
  | JBool _ | JNum _ | JStr _ | JArr _ => ret JUndefined
  end.

(** Lines 88-110: the call of [handleSendMessage] up to its first [await].
    [rendered] is the state of the render that created the closure (the
    handler reads [inputText] and [messages] from it); the setters act on
    the current state.  The result is the [fetch] call issued, if any.
    [Keyboard.dismiss()] touches no state of the component and is left
    out. *)
Definition handleSendMessage_call (now : Z) (rendered : State)
  : Handler (option Request) :=
  let trimmedText := trim (inputText rendered) in
  if isEmpty trimmedText then ret None else
  let userMessage :=
    {| id := toString now; text := JStr trimmedText; sender := user |} in
  let currentMessages := messages rendered in
  setMessages (fun prev => userMessage :: prev) ;;
  setInputText "" ;;
  setIsLoading true ;;
  let conversationHistory := rev currentMessages in
  ret (Some {| url := BACKEND_URL;
               method := "POST";
               headers := [("Content-Type", "application/json")];
               body := {| question := trimmedText;
                          history := conversationHistory |} |}).

(** Lines 103-128: the rest of the [try], the [catch] and the [finally],
    run when the [fetch] promise has settled.  [now] is the one reading of
    [Date.now()] made on the way (line 118 or line 124).
    [console.error] touches no state of the component and is left out. *)
Definition handleSendMessage_resume (now : Z) (fetched : Settled Response)
  : Handler unit :=
  tryCatchFinally
    (response <- await fetched ;;
     (if negb (ok response) then
        errorData <- await (response_text response) ;;
        throw (mkError ("Erro do Servidor: " ++ toString (status response)
                        ++ " - " ++ errorData))
      else ret tt) ;;
     data <- await (response_json response) ;;
     answer <- readAnswer data ;;
     let botResponse :=
       {| id := toString (now + 1); text := answer; sender := bot |} in
     setMessages (fun prev => botResponse :: prev))
    (fun e =>
     let errorText := "Falha na comunicação: " ++ message e in
     let errorResponse :=
       {| id := toString (now + 1); text := JStr errorText; sender := bot |} in
     setMessages (fun prev => errorResponse :: prev))
    (setIsLoading false).

(** A call of the handler of the current render. *)
Definition handleSendMessage (now : Z) (s : State)
  : Outcome (option Request) * State :=
  handleSendMessage_call now s s.

(** ** The screen as a transition system

    The component state together with the exchanges in flight.  The events
    are those of the rendered tree: [onChangeText={setInputText}] on the
    text input, [onPress={handleSendMessage}] on the send button, which is
    rendered with [disabled={isLoading}], and the settlement of a pending
    [fetch]. *)

Record Screen : Type := mkScreen {
  component : State;
  inFlight : list Request
}.

Definition initialScreen : Screen :=
  {| component := initialState; inFlight := [] |}.

Inductive Event : Type :=
| ChangeText (value : string)
| Press (now : Z)
| Settle (k : nat) (now : Z) (fetched : Settled Response).

Definition issued (r : option Request) : list Request :=
  match r with Some q => [q] | None => [] end.

Fixpoint removeNth {A} (k : nat) (l : list A) : list A :=
  match l, k with
  | [], _ => []
  | _ :: rest, O => rest
  | x :: rest, S k' => x :: removeNth k' rest
  end.

(** A press is not delivered to a disabled [TouchableOpacity]. *)
Definition onPress (now : Z) (w : Screen) : Screen :=
  if isLoading (component w) then w else
  let (r, s') := handleSendMessage now (component w) in
  {| component := s';
     inFlight := inFlight w ++
                 match r with Normal q => issued q | Thrown _ => [] end |}.

Definition step (w : Screen) (e : Event) : Screen :=
  match e with
  | ChangeText value =>
      {| component := snd (setInputText value (component w));
         inFlight := inFlight w |}
  | Press now => onPress now w
  | Settle k now fetched =>
      match nth_error (inFlight w) k with
      | None => w
      | Some _ =>
          {| component := snd (handleSendMessage_resume now fetched (component w));
             inFlight := removeNth k (inFlight w) |}
      end
  end.

Definition run (events : list Event) (w : Screen) : Screen :=
  fold_left step events w.

End Controller.

(** ** The states the continuation can end in *)

(** What the catch block leaves behind for a caught error [e]. *)
Definition failureState (now : Z) (e : JsError) (s : State) : State :=
  {| messages :=
       {| id := toString (now + 1);
          text := JStr ("Falha na comunicação: " ++ message e);
          sender := bot |} :: messages s;
     inputText := inputText s;
     isLoading := false |}.

(** What the end of the try block leaves behind for an answer [a]. *)
Definition successState (now : Z) (a : jsval) (s : State) : State :=
  {| messages :=
       {| id := toString (now + 1); text := a; sender := bot |} :: messages s;
     inputText := inputText s;
     isLoading := false |}.

(** ** The invariant of the screen

    Either the loading flag is up and one exchange is in flight, or it is
    down and none is. *)

Definition oneInFlight (w : Screen) : Prop :=
  (isLoading (component w) = true /\ length (inFlight w) = 1%nat)
  \/ (isLoading (component w) = false /\ inFlight w = []).

(** ** Sample data *)

Definition userHello : Message :=
  {| id := "1000"; text := JStr "Hello"; sender := user |}.

Definition botHi : Message :=
  {| id := "1201"; text := JStr "Hi"; sender := bot |}.

(** The input typed, not yet sent. *)
Definition typedHello : State :=
  {| messages := []; inputText := "  Hello "; isLoading := false |}.

(** One turn done, the next question typed. *)
Definition secondTurn : State :=
  {| messages := [botHi; userHello]; inputText := "How are you?";
     isLoading := false |}.

(** Blank input. *)
Definition typedBlank : State :=
  {| messages := [userHello]; inputText := "   "; isLoading := false |}.

(** An exchange in flight, the next question typed meanwhile. *)
Definition waitingTyped : State :=
  {| messages := [userHello]; inputText := "And then?"; isLoading := true |}.

(** A 200 response whose body parses to an object with the answer Hi. *)
Definition answerHi (bodyText : Settled string) : Response :=
  {| status := 200;
     response_text := bodyText;
     response_json := Fulfilled (JObj [("answer", JStr "Hi")]) |}.

(** A 500 response with the body oops. *)
Definition serverOops (parsed : Settled jsval) : Response :=
  {| status := 500;
     response_text := Fulfilled "oops";
     response_json := parsed |}.

(** A 200 response whose body is not JSON. *)
Definition notJson : Response :=
  {| status := 200;
     response_text := Fulfilled "<html>";
     response_json := Rejected (mkError "JSON Parse error: Unexpected token: <") |}.

(** One turn answered at clock 1200, then the question typed meanwhile is
    sent at clock 1201. *)
Definition quickSecondTurn (bodyText : Settled string) : list Event :=
  [ ChangeText "Hello"; Press 1000; ChangeText "b";
    Settle 0 1200 (Fulfilled (answerHi bodyText)); Press 1201 ].

(** ** Notions used by the further properties *)

(** One step of [trimStart]: the rest of [s] after one leading white-space
    code point, if it starts with one. *)
Definition dropWhiteSpace (s : string) : option string :=
  match s with
  | EmptyString => None
  | String c1 r1 =>
      if isWhiteSpace1 (byte c1) then Some r1 else
      match r1 with
      | EmptyString => None
      | String c2 r2 =>
          if isWhiteSpace2 (byte c1) (byte c2) then Some r2 else
          match r2 with
          | EmptyString => None
          | String c3 r3 =>
              if isWhiteSpace3 (byte c1) (byte c2) (byte c3)
              then Some r3 else None
          end
      end
  end.

(** Whether a parsed object has the own property [key]. *)
Definition hasOwnProperty (key : string) (properties : list (string * jsval)) : bool :=
  existsb (fun kv => String.eqb (fst kv) key) properties.

Definition isUser (m : Message) : bool :=
  match sender m with user => true | bot => false end.

Definition isBot (m : Message) : bool :=
  match sender m with user => false | bot => true end.

(** A list of messages, newest first, made of complete turns: each bot
    reply directly in front of the user message it answers. *)
Fixpoint turns (l : list Message) : bool :=
  match l with
  | [] => true
  | b :: rest =>
      match rest with
      | [] => false
      | u :: older => isBot b && isUser u && turns older
      end
  end.

(** The screen and its exchange agree: while [isLoading] is up the newest
    message is the user's question of the one request in flight, in front
    of complete turns, and the request carries those turns oldest first;
    otherwise the list is made of complete turns and nothing is in
    flight. *)
Definition coherent (w : Screen) : Prop :=
  if isLoading (component w) then
    exists u older q,
      messages (component w) = u :: older
      /\ sender u = user
      /\ turns older = true
      /\ inFlight w = [q]
      /\ text u = JStr (question (body q))
      /\ history (body q) = rev older
  else
    turns (messages (component w)) = true /\ inFlight w = [].

(** The reading of [Date.now()] an event brings, if any. *)
Definition reading (e : Event) : option Z :=
  match e with
  | ChangeText _ => None
  | Press now => Some now
  | Settle _ now _ => Some now
  end.

(** Every reading of the clock is at least two milliseconds after the one
    before it, [last] being the one before the first. *)
Fixpoint spaced (last : Z) (events : list Event) : Prop :=
  match events with
  | [] => True
  | e :: rest =>
      match reading e with
      | Some now => (last + 2 <= now)%Z /\ spaced now rest
      | None => spaced last rest
      end
  end.

Definition isSettle (e : Event) : bool :=
  match e with Settle _ _ _ => true | _ => false end.

(** A parsed body from which [data.answer] reads [undefined]: an object
    without the property, or a value that is neither an object nor
    [null]. *)
Definition lacksAnswer (data : jsval) : bool :=
  match data with
  | JObj properties => negb (hasOwnProperty "answer" properties)
  | JUndefined | JNull => false
  | JBool _ | JNum _ | JStr _ | JArr _ => true
  end.

(** The ids in the list are the decimal forms of distinct clock values, none
    later than [bound]. *)
Definition stamped (bound : Z) (w : Screen) : Prop :=
  exists stamps,
    map id (messages (component w)) = map toString stamps
    /\ NoDup stamps
    /\ Forall (fun n => (n <= bound)%Z) stamps.

(** ** The rendering

    The element tree [App] returns, as data: an element has a tag, props
    and children.  A prop that holds a function or a ref is kept by the
    name of what it holds.  The rows of the [FlatList] are what
    [renderItem] gives on the items of [data]. *)

Inductive ColorSchemeName : Type := light | dark.

(** [interface ColorScheme]. *)
Record ColorScheme : Type := mkColorScheme {
  primary : string;
  background : string;
  surface : string;
  textPrimary : string;
  textSecondary : string;
  textHint : string;
  inputBackground : string;
  borderColor : string;
  statusBar : string
}.

Definition lightColors : ColorScheme :=
  {| primary := "#6200EE";
     background := "#F5F5F5";
     surface := "#FFFFFF";
     textPrimary := "#000000";
     textSecondary := "#FFFFFF";
     textHint := "#888888";
     inputBackground := "#F0F0F0";
     borderColor := "#E0E0E0";
     statusBar := "dark-content" |}.

Definition darkColors : ColorScheme :=
  {| primary := "#BB86FC";
     background := "#121212";
     surface := "#1E1E1E";
     textPrimary := "#FFFFFF";
     textSecondary := "#000000";
     textHint := "#AAAAAA";
     inputBackground := "#333333";
     borderColor := "#272727";
     statusBar := "light-content" |}.

Inductive StyleValue : Type :=
| SNumber (n : Z)
| SString (s : string).

Definition Style : Type := list (string * StyleValue).

Inductive PropValue : Type :=
| PString (s : string)
| PNumber (n : Z)
| PBool (b : bool)
| PStyles (styles : list Style)
| PRules (rules : list (string * Style))
| PNamed (name : string).

#[local] Unset Elimination Schemes.
Inductive Element : Type :=
| Node (tag : string) (props : list (string * PropValue)) (children : list Element)
| Content (value : jsval).
#[local] Set Elimination Schemes.

(** [SendIcon]. *)
Definition SendIcon (color : string) : Element :=
  Node "Svg"
    [ ("width", PString "24"); ("height", PString "24");
      ("viewBox", PString "0 0 24 24"); ("fill", PString "none") ]
    [ Node "Path"
        [ ("d", PString "M2.01 21L23 12 2.01 3 2 10l15 2-15 2 .01 7z");
          ("fill", PString color) ]
        [] ].

(** The object [createStyles] returns. *)
Record Styles : Type := mkStyles {
  rootContainer : Style;
  safeArea : Style;
  appContainer : Style;
  header : Style;
  headerContent : Style;
  headerAvatar : Style;
  headerTitle : Style;
  headerSubtitle : Style;
  container : Style;
  chatArea : Style;
  chatContent : Style;
  messageContainer : Style;
  userMessageContainer : Style;
  botMessageContainer : Style;
  avatar : Style;
  messageBubble : Style;
  userMessageBubble : Style;
  botMessageBubble : Style;
  userMessageText : Style;
  botMessageText : Style;
  typingIndicatorContainer : Style;
  typingText : Style;
  inputContainer : Style;
  input : Style;
  sendButton : Style
}.

(** [createStyles]; [platformOS] is [Platform.OS]. *)
Definition createStyles (platformOS : string) (colors : ColorScheme)
    (isDesktop : bool) : Styles :=
  {| rootContainer :=
       [ ("flex", SNumber 1);
         ("backgroundColor", SString (background colors));
         ("alignItems", SString "center");
         ("justifyContent", SString "center") ];
     safeArea :=
       [ ("flex", SNumber 1);
         ("width", SString "100%");
         ("maxWidth", if isDesktop then SNumber 800 else SString "100%") ];
     appContainer :=
       [ ("flex", SNumber 1);
         ("backgroundColor", SString (surface colors));
         ("borderWidth", SNumber (if isDesktop then 1 else 0));
         ("borderColor",
          SString (if isDesktop then borderColor colors else "transparent"));
         ("borderRadius", SNumber (if isDesktop then 8 else 0)) ];
     header :=
       [ ("backgroundColor", SString (surface colors));
         ("paddingVertical", SNumber 12);
         ("paddingHorizontal", SNumber 16);
         ("borderBottomWidth", SNumber 1);
         ("borderBottomColor", SString (borderColor colors));
         ("borderTopLeftRadius", SNumber (if isDesktop then 8 else 0));
         ("borderTopRightRadius", SNumber (if isDesktop then 8 else 0));
         ("flexDirection", SString "row");
         ("justifyContent", SString "space-between");
         ("alignItems", SString "center");
         ("minHeight", SNumber 68) ];
     headerContent :=
       [ ("flexDirection", SString "row"); ("alignItems", SString "center") ];
     headerAvatar :=
       [ ("width", SNumber 44); ("height", SNumber 44);
         ("borderRadius", SNumber 22); ("marginRight", SNumber 12) ];
     headerTitle :=
       [ ("fontSize", SNumber 20); ("fontWeight", SString "600");
         ("color", SString (textPrimary colors)) ];
     headerSubtitle :=
       [ ("fontSize", SNumber 14); ("color", SString (textHint colors)) ];
     container :=
       [ ("flex", SNumber 1); ("backgroundColor", SString (background colors)) ];
     chatArea := [ ("flex", SNumber 1); ("paddingHorizontal", SNumber 10) ];
     chatContent := [ ("paddingVertical", SNumber 10) ];
     messageContainer :=
       [ ("marginVertical", SNumber 5); ("maxWidth", SString "80%") ];
     userMessageContainer := [ ("alignSelf", SString "flex-end") ];
     botMessageContainer :=
       [ ("alignSelf", SString "flex-start");
         ("flexDirection", SString "row");
         ("alignItems", SString "flex-end") ];
     avatar :=
       [ ("width", SNumber 40); ("height", SNumber 40);
         ("borderRadius", SNumber 20); ("marginRight", SNumber 8) ];
     messageBubble :=
       [ ("paddingVertical", SNumber 10);
         ("paddingHorizontal", SNumber 15);
         ("borderRadius", SNumber 20);
         ("flexShrink", SNumber 1) ];
     userMessageBubble :=
       [ ("backgroundColor", SString (primary colors));
         ("borderBottomRightRadius", SNumber 5) ];
     botMessageBubble :=
       [ ("backgroundColor", SString (surface colors));
         ("borderBottomLeftRadius", SNumber 5) ];
     userMessageText :=
       [ ("color", SString (textSecondary colors)); ("fontSize", SNumber 16) ];
     botMessageText :=
       [ ("color", SString (textPrimary colors)); ("fontSize", SNumber 16) ];
     typingIndicatorContainer :=
       [ ("flexDirection", SString "row");
         ("alignItems", SString "center");
         ("paddingHorizontal", SNumber 16);
         ("paddingVertical", SNumber 8) ];
     typingText :=
       [ ("marginLeft", SNumber 8);
         ("color", SString (textHint colors));
         ("fontStyle", SString "italic") ];
     inputContainer :=
       [ ("flexDirection", SString "row");
         ("alignItems", SString "center");
         ("padding", SNumber 8);
         ("backgroundColor", SString (surface colors));
         ("borderTopWidth", SNumber 1);
         ("borderTopColor", SString (borderColor colors));
         ("borderBottomLeftRadius", SNumber (if isDesktop then 8 else 0));
         ("borderBottomRightRadius", SNumber (if isDesktop then 8 else 0)) ];
     input :=
       [ ("flex", SNumber 1);
         ("backgroundColor", SString (inputBackground colors));
         ("color", SString (textPrimary colors));
         ("borderRadius", SNumber 20);
         ("paddingHorizontal", SNumber 15);
         ("paddingVertical",
          SNumber (if String.eqb platformOS "ios" then 10 else 5));
         ("fontSize", SNumber 16);
         ("maxHeight", SNumber 100);
         ("marginRight", SNumber 8) ];
     sendButton :=
       [ ("backgroundColor", SString (primary colors));
         ("width", SNumber 44);
         ("height", SNumber 44);
         ("borderRadius", SNumber 22);
         ("justifyContent", SString "center");
         ("alignItems", SString "center") ] |}.

(** What [App] takes from its hooks and from the platform. *)
Record Host : Type := mkHost {
  systemTheme : option ColorSchemeName;
  width : QArith_base.Q;
  platformOS : string
}.

(** [width > 768]. *)
Definition isDesktop (host : Host) : bool :=
  negb (QArith_base.Qle_bool (width host) (QArith_base.Qmake 768 1)).

(** [systemTheme || 'light']. *)
Definition theme (host : Host) : ColorSchemeName :=
  match systemTheme host with
  | Some name => name
  | None => light
  end.

(** [theme === 'light' ? lightColors : darkColors]. *)
Definition colors (host : Host) : ColorScheme :=
  match theme host with
  | light => lightColors
  | dark => darkColors
  end.

Definition styles (host : Host) : Styles :=
  createStyles (platformOS host) (colors host) (isDesktop host).

(** [renderMessage]. *)
Definition renderMessage (host : Host) (item : Message) : Element :=
  let isUserMessage := isUser item in
  let markdownStyle :=
    [ ("body", botMessageText (styles host));
      ("link", [ ("color", SString (primary (colors host)));
                 ("textDecorationLine", SString "underline") ]);
      ("strong", [ ("fontWeight", SString "bold") ]) ] in
  Node "View"
    [ ("style",
       PStyles [ messageContainer (styles host);
                 if isUserMessage then userMessageContainer (styles host)
                 else botMessageContainer (styles host) ]) ]
    ((if negb isUserMessage
      then [ Node "Image"
               [ ("source", PString "./assets/perfil.png");
                 ("style", PStyles [avatar (styles host)]) ]
               [] ]
      else [])
     ++
     [ Node "View"
         [ ("style",
            PStyles [ messageBubble (styles host);
                      if isUserMessage then userMessageBubble (styles host)
                      else botMessageBubble (styles host) ]) ]
         [ if isUserMessage
           then Node "Text"
                  [ ("style", PStyles [userMessageText (styles host)]) ]
                  [ Content (text item) ]
           else Node "Markdown"
                  [ ("style", PRules markdownStyle) ]
                  [ Content (text item) ] ] ])%list.

(** The tree [App] returns. *)
Definition App (host : Host) (s : State) : Element :=
  Node "View" [ ("style", PStyles [rootContainer (styles host)]) ]
    [ Node "SafeAreaView" [ ("style", PStyles [safeArea (styles host)]) ]
        [ Node "StatusBar"
            [ ("barStyle", PString (statusBar (colors host)));
              ("backgroundColor", PString (surface (colors host))) ]
            [];
          Node "View" [ ("style", PStyles [appContainer (styles host)]) ]
            [ Node "View" [ ("style", PStyles [header (styles host)]) ]
                [ Node "View" [ ("style", PStyles [headerContent (styles host)]) ]
                    [ Node "Image"
                        [ ("source", PString "./assets/perfil.png");
                          ("style", PStyles [headerAvatar (styles host)]) ]
                        [];
                      Node "View" []
                        [ Node "Text"
                            [ ("style", PStyles [headerTitle (styles host)]) ]
                            [ Content (JStr "Lívia AI") ];
                          Node "Text"
                            [ ("style", PStyles [headerSubtitle (styles host)]) ]
                            [ Content (JStr "Assistente do BSI - IF Baiano") ] ] ] ];
              Node "KeyboardAvoidingView"
                [ ("behavior",
                   PString (if String.eqb (platformOS host) "ios"
                            then "padding" else "padding"));
                  ("style", PStyles [container (styles host)]);
                  ("keyboardVerticalOffset",
                   PNumber (if String.eqb (platformOS host) "ios" then 90 else 0)) ]
                ([ Node "FlatList"
                     [ ("ref", PNamed "flatListRef");
                       ("renderItem", PNamed "renderMessage");
                       ("keyExtractor", PNamed "item.id");
                       ("style", PStyles [chatArea (styles host)]);
                       ("contentContainerStyle", PStyles [chatContent (styles host)]);
                       ("inverted", PBool true) ]
                     (map (renderMessage host) (messages s)) ]
                 ++
                 (if isLoading s
                  then [ Node "View"
                           [ ("style",
                              PStyles [typingIndicatorContainer (styles host)]) ]
                           [ Node "ActivityIndicator"
                               [ ("size", PString "small");
                                 ("color", PString (primary (colors host))) ]
                               [];
                             Node "Text"
                               [ ("style", PStyles [typingText (styles host)]) ]
                               [ Content (JStr "Lívia está digitando...") ] ] ]
                  else [])
                 ++
                 [ Node "View" [ ("style", PStyles [inputContainer (styles host)]) ]
                     [ Node "TextInput"
                         [ ("style", PStyles [input (styles host)]);
                           ("placeholder", PString "Pergunte algo para a Lívia...");
                           ("placeholderTextColor",
                            PString (textHint (colors host)));
                           ("value", PString (inputText s));
                           ("onChangeText", PNamed "setInputText");
                           ("multiline", PBool true) ]
                         [];
                       Node "TouchableOpacity"
                         [ ("style", PStyles [sendButton (styles host)]);
                           ("onPress", PNamed "handleSendMessage");
                           ("disabled", PBool (isLoading s)) ]
                         [ SendIcon
                             (match theme host with
                              | dark => textSecondary (colors host)
                              | light => textSecondary (colors host)
                              end) ] ] ])%list ] ] ].

(** ** Reading a rendered tree *)

Fixpoint assoc {V} (key : string) (l : list (string * V)) : option V :=
  match l with
  | [] => None
  | (k, v) :: rest => if String.eqb k key then Some v else assoc key rest
  end.

(** The value of a style property in a style array: a later style
    overrides an earlier one. *)
Definition styleValue (key : string) (styles : list Style) : option StyleValue :=
  fold_left
    (fun found style =>
       match assoc key style with Some v => Some v | None => found end)
    styles None.

Definition styleColor (key : string) (props : list (string * PropValue))
  : list string :=
  match assoc "style" props with
  | Some (PStyles styles) =>
      match styleValue key styles with
      | Some (SString c) => [c]
      | _ => []
      end
  | _ => []
  end.

Definition propColor (key : string) (props : list (string * PropValue))
  : list string :=
  match assoc key props with
  | Some (PString c) => if String.eqb c "none" then [] else [c]
  | _ => []
  end.

Definition ruleColors (props : list (string * PropValue)) : list string :=
  match assoc "style" props with
  | Some (PRules rules) =>
      flat_map (fun rule => match assoc "color" (snd rule) with
                            | Some (SString c) => [c]
                            | _ => []
                            end) rules
  | _ => []
  end.

(** The colours an element draws with: the text colour of its style, its
    colour props, the colours of its Markdown rules. *)
Definition foregrounds (props : list (string * PropValue)) : list string :=
  (styleColor "color" props ++ propColor "color" props
   ++ propColor "placeholderTextColor" props ++ propColor "fill" props
   ++ ruleColors props)%list.

(** No element draws with the colour of the background it stands on, the
    background being that of the nearest enclosing element whose style
    sets one. *)
Fixpoint legible (behind : option string) (e : Element) : bool :=
  match e with
  | Content _ => true
  | Node _ props children =>
      let behind' :=
        match styleColor "backgroundColor" props with
        | c :: _ => Some c
        | [] => behind
        end in
      forallb (fun c => match behind' with
                        | Some b => negb (String.eqb c b)
                        | None => true
                        end) (foregrounds props)
      && forallb (legible behind') children
  end.

(** The props of the elements with a given tag, in document order. *)
Fixpoint propsOf (tag : string) (e : Element) : list (list (string * PropValue)) :=
  match e with
  | Content _ => []
  | Node t props children =>
      ((if String.eqb t tag then [props] else [])
       ++ flat_map (propsOf tag) children)%list
  end.

(** The values shown directly inside the elements with a given tag, in
    document order. *)
Fixpoint contentsOf (tag : string) (e : Element) : list jsval :=
  match e with
  | Content _ => []
  | Node t props children =>
      ((if String.eqb t tag
        then flat_map (fun c => match c with Content v => [v] | Node _ _ _ => [] end)
               children
        else [])
       ++ flat_map (contentsOf tag) children)%list
  end.

(** ** White space and [trim] *)

Lemma isWhiteSpace2_lead b1 b2 :
  isWhiteSpace2 b1 b2 = true -> isWhiteSpace1 b1 = false.
Proof.
  unfold isWhiteSpace2. intros H.
  apply andb_true_iff in H. destruct H as [H _].
  apply N.eqb_eq in H. subst b1. reflexivity.
Qed.

Lemma isWhiteSpace3_lead b1 b2 b3 :
  isWhiteSpace3 b1 b2 b3 = true ->
  isWhiteSpace1 b1 = false /\ isWhiteSpace2 b1 b2 = false.
Proof.
  unfold isWhiteSpace3. intros H.
  assert (L : b1 = 225%N \/ b1 = 226%N \/ b1 = 227%N \/ b1 = 239%N).
  { repeat (apply orb_true_iff in H; destruct H as [H | H]);
      repeat (apply andb_true_iff in H; destruct H as [H _]);
      apply N.eqb_eq in H; auto. }
  destruct L as [-> | [-> | [-> | ->]]]; split; reflexivity.
Qed.

Lemma trimStart_WhiteSpaceOnly s : WhiteSpaceOnly s -> trimStart s = "".
Proof.
  induction 1 as [| c s H _ IH | c1 c2 s H _ IH | c1 c2 c3 s H _ IH].
  - reflexivity.
  - simpl. rewrite H. exact IH.
  - simpl. rewrite (isWhiteSpace2_lead _ _ H), H. exact IH.
  - destruct (isWhiteSpace3_lead _ _ _ H) as [H1 H2].
    simpl. rewrite H1, H2, H. exact IH.
Qed.

Lemma trim_WhiteSpaceOnly s : WhiteSpaceOnly s -> trim s = "".
Proof.
  intros H. unfold trim. rewrite (trimStart_WhiteSpaceOnly s H). reflexivity.
Qed.

Lemma isEmpty_false s : s <> "" -> isEmpty s = false.
Proof. destruct s; [congruence | reflexivity]. Qed.

(** ** The two segments of [handleSendMessage], as equations *)

Lemma handleSendMessage_call_rejected now rendered s :
  trim (inputText rendered) = "" ->
  handleSendMessage_call now rendered s = (Normal None, s).
Proof.
  intros H. unfold handleSendMessage_call. rewrite H. reflexivity.
Qed.

Lemma handleSendMessage_call_accepted now rendered s :
  trim (inputText rendered) <> "" ->
  handleSendMessage_call now rendered s =
  (Normal (Some {| url := BACKEND_URL;
                   method := "POST";
                   headers := [("Content-Type", "application/json")];
                   body := {| question := trim (inputText rendered);
                              history := rev (messages rendered) |} |}),
   {| messages :=
        {| id := toString now; text := JStr (trim (inputText rendered));
           sender := user |} :: messages s;
      inputText := "";
      isLoading := true |}).
Proof.
  intros H. unfold handleSendMessage_call.
  rewrite (isEmpty_false _ H). reflexivity.
Qed.

Lemma resume_fetch_rejected tem now e s :
  handleSendMessage_resume tem now (Rejected e) s = (Normal tt, failureState now e s).
Proof. reflexivity. Qed.

Lemma resume_not_ok tem now r errorData s :
  ok r = false ->
  response_text r = Fulfilled errorData ->
  handleSendMessage_resume tem now (Fulfilled r) s =
  (Normal tt,
   failureState now
     (mkError ("Erro do Servidor: " ++ toString (status r) ++ " - " ++ errorData)) s).
Proof.
  intros Hok Htext.
  unfold handleSendMessage_resume, tryCatchFinally, bind, await, ret.
  rewrite Hok, Htext. reflexivity.
Qed.

Lemma resume_not_ok_unreadable tem now r e s :
  ok r = false ->
  response_text r = Rejected e ->
  handleSendMessage_resume tem now (Fulfilled r) s = (Normal tt, failureState now e s).
Proof.
  intros Hok Htext.
  unfold handleSendMessage_resume, tryCatchFinally, bind, await, ret.
  rewrite Hok, Htext. reflexivity.
Qed.

Lemma resume_json_rejected tem now r e s :
  ok r = true ->
  response_json r = Rejected e ->
  handleSendMessage_resume tem now (Fulfilled r) s = (Normal tt, failureState now e s).
Proof.
  intros Hok Hjson.
  unfold handleSendMessage_resume, tryCatchFinally, bind, await, ret.
  rewrite Hok, Hjson. reflexivity.
Qed.

Lemma resume_json_object tem now r properties s :
  ok r = true ->
  response_json r = Fulfilled (JObj properties) ->
  handleSendMessage_resume tem now (Fulfilled r) s =
  (Normal tt, successState now (getProperty "answer" properties) s).
Proof.
  intros Hok Hjson.
  unfold handleSendMessage_resume, tryCatchFinally, bind, await, ret.
  rewrite Hok, Hjson. reflexivity.
Qed.

(** Whatever the fetch settles to, the continuation completes, leaves one
    more message, sent by the bot, and the loading flag down. *)
Lemma resume_total tem now fetched s :
  exists m,
    handleSendMessage_resume tem now fetched s =
    (Normal tt,
     {| messages := m :: messages s; inputText := inputText s; isLoading := false |})
    /\ sender m = bot /\ id m = toString (now + 1).
Proof.
  destruct fetched as [r | e].
  - unfold handleSendMessage_resume, tryCatchFinally, bind, await, ret.
    destruct (ok r); simpl.
    + destruct (response_json r) as [data | e]; simpl.
      * destruct data; simpl; eexists; (split; [reflexivity | split; reflexivity]).
      * eexists; (split; [reflexivity | split; reflexivity]).
    + destruct (response_text r) as [t | e]; simpl;
        eexists; (split; [reflexivity | split; reflexivity]).
  - eexists; (split; [reflexivity | split; reflexivity]).
Qed.

(** ** Submission *)

(** C2.  A call of [handleSendMessage] on an input whose trimmed form is not
    empty completes before any network activity with one message more at the
    front of [messages], sent by the user and carrying the trimmed text, with
    [inputText] cleared and [isLoading] raised; it issues one request. *)
Theorem submit_prepends_user_message now s :
  trim (inputText s) <> "" ->
  exists request,
    handleSendMessage now s =
    (Normal (Some request),
     {| messages :=
          {| id := toString now; text := JStr (trim (inputText s));
             sender := user |} :: messages s;
        inputText := "";
        isLoading := true |}).
Proof.
  intros H. unfold handleSendMessage.
  rewrite (handleSendMessage_call_accepted now s s H).
  eexists. reflexivity.
Qed.

Lemma submit_prepends_user_message_witness :
  trim (inputText typedHello) <> "" /\
  exists request,
    handleSendMessage 1000 typedHello =
    (Normal (Some request),
     {| messages := [userHello]; inputText := ""; isLoading := true |}).
Proof.
  split.
  - vm_compute. discriminate.
  - apply (submit_prepends_user_message 1000 typedHello).
    vm_compute. discriminate.
Defined.

(** C3.  The request issued by a call of [handleSendMessage] carries the
    trimmed input as [question] and, as [history], the message list of
    before the call in reverse, that is oldest first; the user message the
    call puts in front of [messages] is not part of it. *)
Theorem request_history_is_prior_messages_reversed now s :
  trim (inputText s) <> "" ->
  exists request s',
    handleSendMessage now s = (Normal (Some request), s')
    /\ question (body request) = trim (inputText s)
    /\ history (body request) = rev (messages s)
    /\ history (body request) = rev (tl (messages s')).
Proof.
  intros H. unfold handleSendMessage.
  rewrite (handleSendMessage_call_accepted now s s H).
  do 2 eexists. split; [reflexivity |]. simpl. auto.
Qed.

Lemma request_history_is_prior_messages_reversed_witness :
  trim (inputText secondTurn) <> "" /\
  exists request s',
    handleSendMessage 5000 secondTurn = (Normal (Some request), s')
    /\ question (body request) = "How are you?"
    /\ history (body request) = [userHello; botHi]
    /\ history (body request) = rev (tl (messages s')).
Proof.
  split.
  - vm_compute. discriminate.
  - apply (request_history_is_prior_messages_reversed 5000 secondTurn).
    vm_compute. discriminate.
Defined.

(** C5.  A call of [handleSendMessage] on an empty or white-space-only input
    changes none of [messages], [inputText] and [isLoading] and issues no
    request. *)
Theorem blank_input_is_ignored now s :
  WhiteSpaceOnly (inputText s) ->
  handleSendMessage now s = (Normal None, s).
Proof.
  intros H. unfold handleSendMessage.
  apply handleSendMessage_call_rejected. apply trim_WhiteSpaceOnly. exact H.
Qed.

Lemma blank_input_is_ignored_witness :
  WhiteSpaceOnly (inputText typedBlank)
  /\ handleSendMessage 2000 typedBlank = (Normal None, typedBlank).
Proof.
  assert (H : WhiteSpaceOnly (inputText typedBlank)).
  { simpl. repeat (apply ws_one; [reflexivity |]). apply ws_empty. }
  split; [exact H | exact (blank_input_is_ignored 2000 typedBlank H)].
Defined.

(** ** Completion of the exchange *)

(** C1.  Whatever the fetch settles to (a response with a success status, a
    response with another status, a rejection), the continuation of
    [handleSendMessage] completes without throwing, puts exactly one
    message, sent by the bot, in front of [messages] and lowers
    [isLoading].  Over a whole turn on an input whose trimmed form is not
    empty, [messages] gains the user message and then the bot message. *)
Theorem exchange_always_resolves tem :
  (forall now fetched s,
     exists m,
       handleSendMessage_resume tem now fetched s =
       (Normal tt,
        {| messages := m :: messages s; inputText := inputText s;
           isLoading := false |})
       /\ sender m = bot)
  /\
  (forall now now' fetched s,
     trim (inputText s) <> "" ->
     exists request s1 u b,
       handleSendMessage now s = (Normal (Some request), s1)
       /\ handleSendMessage_resume tem now' fetched s1 =
          (Normal tt,
           {| messages := b :: u :: messages s; inputText := "";
              isLoading := false |})
       /\ sender u = user /\ sender b = bot).
Proof.
  split.
  - intros now fetched s.
    destruct (resume_total tem now fetched s) as (m & E & Hs & _).
    exists m. split; assumption.
  - intros now now' fetched s H.
    unfold handleSendMessage.
    rewrite (handleSendMessage_call_accepted now s s H).
    match goal with
    | |- context [ (Normal (Some ?q), ?s1) ] =>
        destruct (resume_total tem now' fetched s1) as (b & E & Hb & _);
        exists q, s1
    end.
    eexists. exists b.
    split; [reflexivity |]. split; [exact E |]. split; [reflexivity | exact Hb].
Qed.

Lemma exchange_always_resolves_witness :
  trim (inputText typedHello) <> "" /\
  exists request s1 u b,
    handleSendMessage 1000 typedHello = (Normal (Some request), s1)
    /\ handleSendMessage_resume "TypeError" 1200 (Fulfilled notJson) s1 =
       (Normal tt,
        {| messages := b :: u :: messages typedHello; inputText := "";
           isLoading := false |})
    /\ sender u = user /\ sender b = bot.
Proof.
  split.
  - vm_compute. discriminate.
  - apply (proj2 (exchange_always_resolves "TypeError") 1000%Z 1200%Z
             (Fulfilled notJson) typedHello).
    vm_compute. discriminate.
Defined.

(** C6.  On a response with a success status whose body parses to an object
    with a string [answer], the continuation puts exactly one message in
    front of [messages], sent by the bot, with that string as text.  With
    the input Hello answered by an object whose [answer] is Hi, the list
    ends up as the bot message Hi followed by the user message Hello. *)
Theorem success_prepends_answer tem :
  (forall now r properties a s,
     ok r = true ->
     response_json r = Fulfilled (JObj properties) ->
     getProperty "answer" properties = JStr a ->
     handleSendMessage_resume tem now (Fulfilled r) s =
     (Normal tt,
      {| messages :=
           {| id := toString (now + 1); text := JStr a; sender := bot |}
           :: messages s;
         inputText := inputText s;
         isLoading := false |}))
  /\
  (forall now now' bodyText,
     map (fun m => (sender m, text m))
       (messages (component
          (run tem [ ChangeText "Hello"; Press now;
                     Settle 0 now' (Fulfilled (answerHi bodyText)) ]
             initialScreen)))
     = [ (bot, JStr "Hi"); (user, JStr "Hello") ]).
Proof.
  split.
  - intros now r properties a s Hok Hjson Ha.
    rewrite (resume_json_object tem now r properties s Hok Hjson).
    unfold successState. rewrite Ha. reflexivity.
  - intros now now' bodyText. reflexivity.
Qed.

Lemma success_prepends_answer_witness :
  ok (answerHi (Rejected (mkError "body used"))) = true
  /\ handleSendMessage_resume "TypeError" 1200
       (Fulfilled (answerHi (Rejected (mkError "body used"))))
       {| messages := [userHello]; inputText := ""; isLoading := true |} =
     (Normal tt,
      {| messages := [botHi; userHello]; inputText := ""; isLoading := false |}).
Proof.
  split; [reflexivity |].
  exact (proj1 (success_prepends_answer "TypeError") 1200%Z
           (answerHi (Rejected (mkError "body used")))
           [("answer", JStr "Hi")] "Hi"
           {| messages := [userHello]; inputText := ""; isLoading := true |}
           eq_refl eq_refl eq_refl).
Defined.

(** ** Failure paths *)

Lemma append_assoc (a b c : string) : (a ++ b) ++ c = a ++ b ++ c.
Proof. induction a as [| x a IH]; simpl; [reflexivity | now rewrite IH]. Qed.

Lemma append_empty_r (a : string) : a ++ "" = a.
Proof. induction a as [| x a IH]; simpl; [reflexivity | now rewrite IH]. Qed.

Lemma includes_middle (pre sub post : string) : includes (pre ++ sub ++ post) sub.
Proof. exists pre, post. reflexivity. Qed.

Lemma includes_end (pre sub : string) : includes (pre ++ sub) sub.
Proof. exists pre, "". now rewrite append_empty_r. Qed.

Lemma includes_append_l (pre s sub : string) : includes s sub -> includes (pre ++ s) sub.
Proof.
  intros (a & b & ->). exists (pre ++ a), b. now rewrite append_assoc.
Qed.

(** C7.  On a response with a status outside 200..299 whose body reads as
    the text [errorData], the continuation completes without throwing and
    puts in front of [messages] a bot message whose text contains the
    decimal status code and [errorData]. *)
Theorem server_error_is_reported tem now r errorData s :
  ok r = false ->
  response_text r = Fulfilled errorData ->
  exists t,
    handleSendMessage_resume tem now (Fulfilled r) s =
    (Normal tt,
     {| messages :=
          {| id := toString (now + 1); text := JStr t; sender := bot |}
          :: messages s;
        inputText := inputText s;
        isLoading := false |})
    /\ t = "Falha na comunicação: Erro do Servidor: "
           ++ toString (status r) ++ " - " ++ errorData
    /\ includes t (toString (status r))
    /\ includes t errorData.
Proof.
  intros Hok Htext.
  rewrite (resume_not_ok tem now r errorData s Hok Htext).
  eexists. split; [reflexivity |]. split; [reflexivity |]. split.
  - apply (includes_middle "Falha na comunicação: Erro do Servidor: ").
  - apply (includes_append_l "Falha na comunicação: Erro do Servidor: ").
    apply includes_append_l. apply includes_end.
Qed.

Lemma server_error_is_reported_witness :
  ok (serverOops (Rejected (mkError "not JSON"))) = false
  /\ exists t,
       handleSendMessage_resume "TypeError" 1200
         (Fulfilled (serverOops (Rejected (mkError "not JSON"))))
         {| messages := [userHello]; inputText := ""; isLoading := true |} =
       (Normal tt,
        {| messages :=
             [ {| id := "1201"; text := JStr t; sender := bot |}; userHello ];
           inputText := "";
           isLoading := false |})
       /\ t = "Falha na comunicação: Erro do Servidor: 500 - oops"
       /\ includes t "500"
       /\ includes t "oops".
Proof.
  split; [reflexivity |].
  exact (server_error_is_reported "TypeError" 1200%Z
           (serverOops (Rejected (mkError "not JSON"))) "oops"
           {| messages := [userHello]; inputText := ""; isLoading := true |}
           eq_refl eq_refl).
Defined.

(** C8.  When the fetch itself is rejected with an error [e], the
    continuation completes without throwing and puts in front of [messages]
    a bot message whose text is the communication-failure prefix followed by
    the message of [e]. *)
Theorem transport_failure_is_reported tem now e s :
  exists t,
    handleSendMessage_resume tem now (Rejected e) s =
    (Normal tt,
     {| messages :=
          {| id := toString (now + 1); text := JStr t; sender := bot |}
          :: messages s;
        inputText := inputText s;
        isLoading := false |})
    /\ startsWith t "Falha na comunicação: "
    /\ includes t (message e).
Proof.
  exists ("Falha na comunicação: " ++ message e).
  split; [reflexivity |]. split.
  - exists (message e). reflexivity.
  - apply includes_end.
Qed.

(** C10.  On a response with a success status whose body does not parse,
    [response.json()] rejecting with [e], the continuation ends as it does
    when the fetch is rejected with [e]: it completes without throwing,
    puts in front of [messages] a bot message whose text is the
    communication-failure prefix followed by the message of [e], and lowers
    [isLoading]. *)
Theorem unparsable_body_is_reported tem now r e s :
  ok r = true ->
  response_json r = Rejected e ->
  handleSendMessage_resume tem now (Fulfilled r) s =
  (Normal tt,
   {| messages :=
        {| id := toString (now + 1);
           text := JStr ("Falha na comunicação: " ++ message e);
           sender := bot |} :: messages s;
      inputText := inputText s;
      isLoading := false |})
  /\ handleSendMessage_resume tem now (Fulfilled r) s =
     handleSendMessage_resume tem now (Rejected e) s.
Proof.
  intros Hok Hjson.
  rewrite (resume_json_rejected tem now r e s Hok Hjson).
  rewrite resume_fetch_rejected. split; reflexivity.
Qed.

Lemma unparsable_body_is_reported_witness :
  ok notJson = true
  /\ handleSendMessage_resume "TypeError" 1200 (Fulfilled notJson)
       {| messages := [userHello]; inputText := ""; isLoading := true |} =
     (Normal tt,
      {| messages :=
           [ {| id := "1201";
                text := JStr "Falha na comunicação: JSON Parse error: Unexpected token: <";
                sender := bot |};
             userHello ];
         inputText := "";
         isLoading := false |}).
Proof.
  split; [reflexivity |].
  exact (proj1 (unparsable_body_is_reported "TypeError" 1200%Z notJson
                  (mkError "JSON Parse error: Unexpected token: <")
                  {| messages := [userHello]; inputText := ""; isLoading := true |}
                  eq_refl eq_refl)).
Defined.

(** ** One exchange at a time *)

Lemma nth_error_singleton {A} (x y : A) k :
  nth_error [x] k = Some y -> k = O.
Proof.
  destruct k as [| k]; [reflexivity |].
  simpl. destruct k; discriminate.
Qed.

Lemma length_one {A} (l : list A) : length l = 1%nat -> exists x, l = [x].
Proof.
  destruct l as [| x [| y l]]; simpl; try discriminate.
  intros _. exists x. reflexivity.
Qed.

Lemma onPress_disabled now w :
  isLoading (component w) = true -> onPress now w = w.
Proof. intros H. unfold onPress. rewrite H. reflexivity. Qed.

Lemma onPress_preserves now w : oneInFlight w -> oneInFlight (onPress now w).
Proof.
  intros Inv. unfold onPress.
  destruct (isLoading (component w)) eqn:L; [exact Inv |].
  destruct Inv as [[L' _] | [_ Hnone]]; [congruence |].
  unfold handleSendMessage.
  destruct (string_dec (trim (inputText (component w))) "") as [E | E].
  - rewrite (handleSendMessage_call_rejected now _ _ E). simpl.
    right. split; [exact L |]. rewrite Hnone. reflexivity.
  - rewrite (handleSendMessage_call_accepted now _ _ E). simpl.
    left. split; [reflexivity |]. rewrite Hnone. reflexivity.
Qed.

Lemma step_preserves tem w e : oneInFlight w -> oneInFlight (step tem w e).
Proof.
  intros Inv. destruct e as [value | now | k now fetched]; simpl.
  - exact Inv.
  - apply onPress_preserves. exact Inv.
  - destruct (nth_error (inFlight w) k) as [q |] eqn:N; [| exact Inv].
    destruct Inv as [[_ Hone] | [_ Hnone]].
    + destruct (length_one _ Hone) as [x Hx]. rewrite Hx in N |- *.
      rewrite (nth_error_singleton _ _ _ N).
      destruct (resume_total tem now fetched (component w)) as (m & E & _).
      right. simpl. rewrite E. split; reflexivity.
    + rewrite Hnone in N. destruct k; discriminate.
Qed.

Lemma run_preserves tem events :
  forall w, oneInFlight w -> oneInFlight (run tem events w).
Proof.
  induction events as [| e events IH]; intros w Inv; simpl.
  - exact Inv.
  - apply IH. apply step_preserves. exact Inv.
Qed.

Lemma initialScreen_oneInFlight : oneInFlight initialScreen.
Proof. right. split; reflexivity. Qed.

(** C4, as amended.  [handleSendMessage] does not look at [isLoading]; the
    send button does: it is disabled while [isLoading] is up, so a press
    then changes nothing on the screen and issues no request.  In every
    state the screen reaches through its events at most one exchange is in
    flight, and [isLoading] is up exactly when one is. *)
Theorem send_is_disabled_while_loading tem :
  (forall now w, isLoading (component w) = true -> step tem w (Press now) = w)
  /\
  (forall events,
     let w := run tem events initialScreen in
     (length (inFlight w) <= 1)%nat
     /\ (isLoading (component w) = true <-> inFlight w <> [])).
Proof.
  split.
  - intros now w H. simpl. apply onPress_disabled. exact H.
  - intros events w.
    assert (Inv : oneInFlight w)
      by (apply run_preserves; exact initialScreen_oneInFlight).
    destruct Inv as [[L Hone] | [L Hnone]].
    + split; [lia |]. split; [| intros _; exact L].
      intros _ E. rewrite E in Hone. discriminate.
    + split; [rewrite Hnone; simpl; lia |]. split; [congruence |].
      intros E. contradiction.
Qed.

Lemma send_is_disabled_while_loading_witness :
  isLoading waitingTyped = true
  /\ step "TypeError" {| component := waitingTyped; inFlight := [] |} (Press 2000)
     = {| component := waitingTyped; inFlight := [] |}.
Proof.
  split; [reflexivity |].
  exact (proj1 (send_is_disabled_while_loading "TypeError") 2000%Z
           {| component := waitingTyped; inFlight := [] |} eq_refl).
Defined.

(** C4, as stated, fails on the handler itself: called while [isLoading] is
    up, on an input that is not blank, it puts a user message in front of
    [messages], clears [inputText] and issues a request. *)
Lemma handleSendMessage_runs_while_loading :
  isLoading waitingTyped = true
  /\ handleSendMessage 2000 waitingTyped <> (Normal None, waitingTyped)
  /\ handleSendMessage 2000 waitingTyped =
     (Normal (Some {| url := BACKEND_URL;
                      method := "POST";
                      headers := [("Content-Type", "application/json")];
                      body := {| question := "And then?";
                                 history := [userHello] |} |}),
      {| messages :=
           [ {| id := "2000"; text := JStr "And then?"; sender := user |};
             userHello ];
         inputText := "";
         isLoading := true |}).
Proof.
  split; [reflexivity |]. split; [| reflexivity].
  vm_compute. discriminate.
Qed.

(** ** Message ids *)

(** C9 fails on the code.  The ids are clock readings: when a question typed
    during the exchange is sent one millisecond after the answer has come,
    the new user message gets the id the bot message already has. *)
Theorem ids_collide_on_quick_second_turn tem bodyText :
  map id (messages (component (run tem (quickSecondTurn bodyText) initialScreen)))
  = ["1201"; "1201"; "1000"]
  /\ ~ NoDup (map id (messages (component
                (run tem (quickSecondTurn bodyText) initialScreen)))).
Proof.
  assert (E : map id (messages (component
                (run tem (quickSecondTurn bodyText) initialScreen)))
              = ["1201"; "1201"; "1000"]) by reflexivity.
  split; [exact E |].
  rewrite E. intros H. inversion H as [| x l Hnotin _]; subst.
  apply Hnotin. left. reflexivity.
Qed.

(** * Further properties *)

(** ** [trim] and the guard of the handler *)

Lemma trimStart_step s :
  trimStart s =
  match dropWhiteSpace s with Some r => trimStart r | None => s end.
Proof.
  destruct s as [| c1 r1]; [reflexivity |].
  cbn [trimStart dropWhiteSpace].
  destruct (isWhiteSpace1 (byte c1)); [reflexivity |].
  destruct r1 as [| c2 r2]; [reflexivity |].
  destruct (isWhiteSpace2 (byte c1) (byte c2)); [reflexivity |].
  destruct r2 as [| c3 r3]; [reflexivity |].
  destruct (isWhiteSpace3 (byte c1) (byte c2) (byte c3)); reflexivity.
Qed.

Lemma dropWhiteSpace_shorter s r :
  dropWhiteSpace s = Some r -> (String.length r < String.length s)%nat.
Proof.
  destruct s as [| c1 [| c2 [| c3 r3]]]; simpl;
    repeat match goal with |- context [if ?b then _ else _] => destruct b end;
    intros H; inversion H; subst; simpl; lia.
Qed.

Lemma dropWhiteSpace_WhiteSpaceOnly s r :
  dropWhiteSpace s = Some r -> WhiteSpaceOnly r -> WhiteSpaceOnly s.
Proof.
  destruct s as [| c1 [| c2 [| c3 r3]]]; simpl; try discriminate.
  - destruct (isWhiteSpace1 (byte c1)) eqn:W1; [| discriminate].
    intros H; inversion H; subst. now apply ws_one.
  - destruct (isWhiteSpace1 (byte c1)) eqn:W1.
    { intros H; inversion H; subst. now apply ws_one. }
    destruct (isWhiteSpace2 (byte c1) (byte c2)) eqn:W2; [| discriminate].
    intros H; inversion H; subst. now apply ws_two.
  - destruct (isWhiteSpace1 (byte c1)) eqn:W1.
    { intros H; inversion H; subst. now apply ws_one. }
    destruct (isWhiteSpace2 (byte c1) (byte c2)) eqn:W2.
    { intros H; inversion H; subst. now apply ws_two. }
    destruct (isWhiteSpace3 (byte c1) (byte c2) (byte c3)) eqn:W3; [| discriminate].
    intros H; inversion H; subst. now apply ws_three.
Qed.

Lemma by_length (P : string -> Prop) :
  (forall s, (forall r, (String.length r < String.length s)%nat -> P r) -> P s) ->
  forall s, P s.
Proof.
  intros step s.
  assert (H : forall n r, (String.length r < n)%nat -> P r).
  { induction n as [| n IH]; intros r Hr; [lia |].
    apply step. intros r' Hr'. apply IH. lia. }
  apply (H (S (String.length s))). lia.
Qed.

Lemma trimStart_idempotent s : trimStart (trimStart s) = trimStart s.
Proof.
  induction s as [s IH] using by_length.
  rewrite (trimStart_step s).
  destruct (dropWhiteSpace s) as [r |] eqn:D.
  - apply IH. eapply dropWhiteSpace_shorter; eassumption.
  - rewrite (trimStart_step s), D. reflexivity.
Qed.

Lemma trimStart_empty_WhiteSpaceOnly s : trimStart s = "" -> WhiteSpaceOnly s.
Proof.
  induction s as [s IH] using by_length.
  rewrite (trimStart_step s).
  destruct (dropWhiteSpace s) as [r |] eqn:D.
  - intros H. apply (dropWhiteSpace_WhiteSpaceOnly s r D).
    apply IH; [eapply dropWhiteSpace_shorter; eassumption | exact H].
  - intros ->. apply ws_empty.
Qed.

Lemma trimEnd_empty t : trimEnd t = "" -> trimStart t = "".
Proof.
  destruct t as [| c r]; [reflexivity |].
  cbn [trimEnd]. destruct (isEmpty (trimStart (String c r))) eqn:E.
  - intros _. destruct (trimStart (String c r)); [reflexivity | discriminate].
  - discriminate.
Qed.

Lemma trim_empty_WhiteSpaceOnly s : trim s = "" -> WhiteSpaceOnly s.
Proof.
  unfold trim. intros H. apply trimStart_empty_WhiteSpaceOnly.
  rewrite <- trimStart_idempotent. apply trimEnd_empty. exact H.
Qed.

Lemma WhiteSpaceOnly_app a b :
  WhiteSpaceOnly a -> WhiteSpaceOnly b -> WhiteSpaceOnly (a ++ b).
Proof.
  intros Ha Hb.
  induction Ha as [| c s H _ IH | c1 c2 s H _ IH | c1 c2 c3 s H _ IH]; simpl.
  - exact Hb.
  - now apply ws_one.
  - now apply ws_two.
  - now apply ws_three.
Qed.

(** What [trimEnd] cuts off is white space. *)
Lemma trimEnd_split t : exists q, t = trimEnd t ++ q /\ WhiteSpaceOnly q.
Proof.
  induction t as [| c r IH].
  - exists "". split; [reflexivity | apply ws_empty].
  - cbn [trimEnd]. destruct (isEmpty (trimStart (String c r))) eqn:E.
    + exists (String c r). split; [reflexivity |].
      apply trimStart_empty_WhiteSpaceOnly.
      destruct (trimStart (String c r)); [reflexivity | discriminate].
    + destruct IH as (q & Hq & Wq). exists q. split; [| exact Wq].
      simpl. rewrite <- Hq. reflexivity.
Qed.

Lemma trimEnd_idempotent t : trimEnd (trimEnd t) = trimEnd t.
Proof.
  induction t as [| c r IH]; [reflexivity |].
  cbn [trimEnd]. destruct (isEmpty (trimStart (String c r))) eqn:E; [reflexivity |].
  cbn [trimEnd]. rewrite IH.
  destruct (isEmpty (trimStart (String c (trimEnd r)))) eqn:E'; [| reflexivity].
  exfalso.
  assert (W : WhiteSpaceOnly (String c (trimEnd r))).
  { apply trimStart_empty_WhiteSpaceOnly.
    destruct (trimStart (String c (trimEnd r))); [reflexivity | discriminate]. }
  destruct (trimEnd_split r) as (q & Hq & Wq).
  assert (W' : WhiteSpaceOnly (String c r)).
  { rewrite Hq. apply (WhiteSpaceOnly_app (String c (trimEnd r)) q W Wq). }
  rewrite (trimStart_WhiteSpaceOnly _ W') in E. discriminate.
Qed.

Lemma dropWhiteSpace_trimStart s : dropWhiteSpace (trimStart s) = None.
Proof.
  induction s as [s IH] using by_length.
  rewrite (trimStart_step s).
  destruct (dropWhiteSpace s) as [r |] eqn:D.
  - apply IH. eapply dropWhiteSpace_shorter; eassumption.
  - exact D.
Qed.

Lemma dropWhiteSpace_prefix p q :
  dropWhiteSpace (p ++ q) = None -> dropWhiteSpace p = None.
Proof.
  destruct p as [| c1 [| c2 [| c3 r3]]]; [reflexivity | | |].
  - simpl. destruct (isWhiteSpace1 (byte c1)); [discriminate | reflexivity].
  - simpl. destruct (isWhiteSpace1 (byte c1)); [discriminate |].
    destruct q as [| c q].
    + simpl. destruct (isWhiteSpace2 (byte c1) (byte c2)); [discriminate | reflexivity].
    + destruct (isWhiteSpace2 (byte c1) (byte c2)); [discriminate | reflexivity].
  - simpl. destruct (isWhiteSpace1 (byte c1)); [discriminate |].
    destruct (isWhiteSpace2 (byte c1) (byte c2)); [discriminate |].
    destruct (isWhiteSpace3 (byte c1) (byte c2) (byte c3));
      [discriminate | reflexivity].
Qed.

Lemma trim_idempotent s : trim (trim s) = trim s.
Proof.
  unfold trim.
  assert (F : trimStart (trimEnd (trimStart s)) = trimEnd (trimStart s)).
  { rewrite trimStart_step.
    destruct (trimEnd_split (trimStart s)) as (q & Hq & _).
    pose proof (dropWhiteSpace_trimStart s) as D. rewrite Hq in D.
    rewrite (dropWhiteSpace_prefix _ _ D). reflexivity. }
  rewrite F. apply trimEnd_idempotent.
Qed.

(** X1.  [handleSendMessage] returns without issuing a request exactly on
    the inputs made of white space and line terminators only (the empty
    input among them); on every other input it issues one. *)
Theorem request_issued_iff_not_blank now s :
  (fst (handleSendMessage now s) = Normal None <-> WhiteSpaceOnly (inputText s))
  /\ ((exists q, fst (handleSendMessage now s) = Normal (Some q))
      <-> ~ WhiteSpaceOnly (inputText s)).
Proof.
  unfold handleSendMessage.
  destruct (string_dec (trim (inputText s)) "") as [E | E].
  - rewrite (handleSendMessage_call_rejected now s s E). simpl.
    pose proof (trim_empty_WhiteSpaceOnly _ E) as W.
    split; split; intros H; auto.
    + destruct H as [q H]. discriminate.
    + contradiction.
  - rewrite (handleSendMessage_call_accepted now s s E). simpl.
    assert (N : ~ WhiteSpaceOnly (inputText s))
      by (intros W; apply E; apply trim_WhiteSpaceOnly; exact W).
    split; split; intros H; auto.
    + discriminate.
    + contradiction.
    + eexists; reflexivity.
Qed.

Lemma request_issued_iff_not_blank_witness :
  WhiteSpaceOnly (inputText typedBlank)
  /\ fst (handleSendMessage 2000 typedBlank) = Normal None.
Proof.
  assert (H : WhiteSpaceOnly (inputText typedBlank)).
  { simpl. repeat (apply ws_one; [reflexivity |]). apply ws_empty. }
  split; [exact H |].
  exact (proj2 (proj1 (request_issued_iff_not_blank 2000 typedBlank)) H).
Defined.

(** X2.  Every request [handleSendMessage] issues is a POST to
    [BACKEND_URL] with the JSON content type, and its question is not empty
    and has no white space left at either end. *)
Theorem issued_request_is_well_formed now s q :
  fst (handleSendMessage now s) = Normal (Some q) ->
  url q = BACKEND_URL
  /\ method q = "POST"
  /\ headers q = [("Content-Type", "application/json")]
  /\ question (body q) <> ""
  /\ trim (question (body q)) = question (body q).
Proof.
  unfold handleSendMessage.
  destruct (string_dec (trim (inputText s)) "") as [E | E].
  - rewrite (handleSendMessage_call_rejected now s s E). discriminate.
  - rewrite (handleSendMessage_call_accepted now s s E). simpl.
    intros H. inversion H; subst; simpl.
    repeat split; [exact E | apply trim_idempotent].
Qed.

Lemma issued_request_is_well_formed_witness :
  fst (handleSendMessage 1000 typedHello) =
    Normal (Some {| url := BACKEND_URL;
                    method := "POST";
                    headers := [("Content-Type", "application/json")];
                    body := {| question := "Hello"; history := [] |} |})
  /\ "Hello" <> ""
  /\ trim "Hello" = "Hello".
Proof.
  split; [reflexivity |].
  exact (proj2 (proj2 (proj2
    (issued_request_is_well_formed 1000 typedHello
       {| url := BACKEND_URL;
          method := "POST";
          headers := [("Content-Type", "application/json")];
          body := {| question := "Hello"; history := [] |} |}
       eq_refl)))).
Defined.

(** ** Edge cases of the continuation *)

Lemma getProperty_missing key properties :
  hasOwnProperty key properties = false -> getProperty key properties = JUndefined.
Proof.
  induction properties as [| [k v] rest IH]; simpl; [reflexivity |].
  destruct (String.eqb k key); simpl; [discriminate | exact IH].
Qed.

(** X3.  On a response with a success status whose parsed body has no
    [answer] (an object without that property, or a boolean, number, string
    or array), the continuation takes the success path all the same: the
    bot message it puts in front of [messages] has [undefined] as text, and
    no failure message is made. *)
Theorem missing_answer_gives_undefined_text tem now r data s :
  ok r = true ->
  response_json r = Fulfilled data ->
  lacksAnswer data = true ->
  handleSendMessage_resume tem now (Fulfilled r) s =
  (Normal tt,
   {| messages :=
        {| id := toString (now + 1); text := JUndefined; sender := bot |}
        :: messages s;
      inputText := inputText s;
      isLoading := false |}).
Proof.
  intros Hok Hjson Hlack.
  unfold handleSendMessage_resume, tryCatchFinally, bind, await, ret.
  rewrite Hok, Hjson. simpl.
  destruct data as [| | b | n | t | items | properties]; simpl in Hlack;
    try discriminate; try reflexivity.
  simpl. rewrite (getProperty_missing "answer" properties); [reflexivity |].
  destruct (hasOwnProperty "answer" properties); [discriminate | reflexivity].
Qed.

Lemma missing_answer_gives_undefined_text_witness :
  lacksAnswer (JObj [("reply", JStr "Hi")]) = true
  /\ handleSendMessage_resume "TypeError" 1200
       (Fulfilled {| status := 200;
                     response_text := Rejected (mkError "body used");
                     response_json := Fulfilled (JObj [("reply", JStr "Hi")]) |})
       {| messages := [userHello]; inputText := ""; isLoading := true |} =
     (Normal tt,
      {| messages :=
           [ {| id := "1201"; text := JUndefined; sender := bot |}; userHello ];
         inputText := "";
         isLoading := false |}).
Proof.
  split; [reflexivity |].
  exact (missing_answer_gives_undefined_text "TypeError" 1200%Z
           {| status := 200;
              response_text := Rejected (mkError "body used");
              response_json := Fulfilled (JObj [("reply", JStr "Hi")]) |}
           (JObj [("reply", JStr "Hi")])
           {| messages := [userHello]; inputText := ""; isLoading := true |}
           eq_refl eq_refl eq_refl).
Defined.

(** X4.  On a response with a success status whose body parses to [null],
    reading [data.answer] throws; the error is caught like a transport
    failure and the bot message carries the communication-failure prefix
    followed by the engine's message for that [TypeError]. *)
Theorem null_body_is_reported tem now r s :
  ok r = true ->
  response_json r = Fulfilled JNull ->
  handleSendMessage_resume tem now (Fulfilled r) s =
  (Normal tt,
   {| messages :=
        {| id := toString (now + 1);
           text := JStr ("Falha na comunicação: " ++ tem);
           sender := bot |} :: messages s;
      inputText := inputText s;
      isLoading := false |}).
Proof.
  intros Hok Hjson.
  unfold handleSendMessage_resume, tryCatchFinally, bind, await, ret.
  rewrite Hok, Hjson. reflexivity.
Qed.

Lemma null_body_is_reported_witness :
  ok {| status := 200; response_text := Fulfilled "null";
        response_json := Fulfilled JNull |} = true
  /\ handleSendMessage_resume "Cannot read property 'answer' of null" 1200
       (Fulfilled {| status := 200; response_text := Fulfilled "null";
                     response_json := Fulfilled JNull |})
       {| messages := [userHello]; inputText := ""; isLoading := true |} =
     (Normal tt,
      {| messages :=
           [ {| id := "1201";
                text := JStr "Falha na comunicação: Cannot read property 'answer' of null";
                sender := bot |};
             userHello ];
         inputText := "";
         isLoading := false |}).
Proof.
  split; [reflexivity |].
  exact (null_body_is_reported "Cannot read property 'answer' of null" 1200%Z
           {| status := 200; response_text := Fulfilled "null";
              response_json := Fulfilled JNull |}
           {| messages := [userHello]; inputText := ""; isLoading := true |}
           eq_refl eq_refl).
Defined.

(** X5.  On a response with a status outside 200..299 whose body cannot be
    read, [response.text()] rejecting with [e], the continuation ends as it
    does when the fetch is rejected with [e]: the bot message carries the
    prefix and the message of [e], and the status code is not reported. *)
Theorem unreadable_error_body_is_reported tem now r e s :
  ok r = false ->
  response_text r = Rejected e ->
  handleSendMessage_resume tem now (Fulfilled r) s =
  (Normal tt,
   {| messages :=
        {| id := toString (now + 1);
           text := JStr ("Falha na comunicação: " ++ message e);
           sender := bot |} :: messages s;
      inputText := inputText s;
      isLoading := false |})
  /\ handleSendMessage_resume tem now (Fulfilled r) s =
     handleSendMessage_resume tem now (Rejected e) s.
Proof.
  intros Hok Htext.
  rewrite (resume_not_ok_unreadable tem now r e s Hok Htext).
  rewrite resume_fetch_rejected. split; reflexivity.
Qed.

Lemma unreadable_error_body_is_reported_witness :
  ok {| status := 502; response_text := Rejected (mkError "Network request failed");
        response_json := Rejected (mkError "Network request failed") |} = false
  /\ handleSendMessage_resume "TypeError" 1200
       (Fulfilled {| status := 502;
                     response_text := Rejected (mkError "Network request failed");
                     response_json := Rejected (mkError "Network request failed") |})
       {| messages := [userHello]; inputText := ""; isLoading := true |} =
     (Normal tt,
      {| messages :=
           [ {| id := "1201";
                text := JStr "Falha na comunicação: Network request failed";
                sender := bot |};
             userHello ];
         inputText := "";
         isLoading := false |}).
Proof.
  split; [reflexivity |].
  exact (proj1 (unreadable_error_body_is_reported "TypeError" 1200%Z
           {| status := 502;
              response_text := Rejected (mkError "Network request failed");
              response_json := Rejected (mkError "Network request failed") |}
           (mkError "Network request failed")
           {| messages := [userHello]; inputText := ""; isLoading := true |}
           eq_refl eq_refl)).
Defined.

(** X6.  The continuation reads the body of a response once: with a success
    status its result does not depend on what [response.text()] would give,
    and with any other status it does not depend on what [response.json()]
    would give. *)
Theorem body_is_read_once tem now r s :
  (ok r = true ->
   forall t,
     handleSendMessage_resume tem now (Fulfilled r) s =
     handleSendMessage_resume tem now
       (Fulfilled {| status := status r; response_text := t;
                     response_json := response_json r |}) s)
  /\
  (ok r = false ->
   forall j,
     handleSendMessage_resume tem now (Fulfilled r) s =
     handleSendMessage_resume tem now
       (Fulfilled {| status := status r; response_text := response_text r;
                     response_json := j |}) s).
Proof.
  split; intros Hok x;
    unfold handleSendMessage_resume, tryCatchFinally, bind, await, ret;
    unfold ok in *; simpl; rewrite Hok; try reflexivity.
  simpl. destruct (response_text r); reflexivity.
Qed.

Lemma body_is_read_once_witness :
  ok (answerHi (Fulfilled "first")) = true
  /\ handleSendMessage_resume "TypeError" 1200
       (Fulfilled (answerHi (Fulfilled "first"))) initialState =
     handleSendMessage_resume "TypeError" 1200
       (Fulfilled (answerHi (Rejected (mkError "body used")))) initialState.
Proof.
  split; [reflexivity |].
  exact (proj1 (body_is_read_once "TypeError" 1200%Z
                  (answerHi (Fulfilled "first")) initialState)
           eq_refl (Rejected (mkError "body used"))).
Defined.

(** ** The screen over its runs *)

(** The message the continuation adds depends on the clock and on the
    settlement only, not on the state it is added to. *)
Lemma resume_uniform tem now fetched :
  exists m,
    (forall s,
       handleSendMessage_resume tem now fetched s =
       (Normal tt,
        {| messages := m :: messages s; inputText := inputText s;
           isLoading := false |}))
    /\ sender m = bot /\ id m = toString (now + 1).
Proof.
  destruct fetched as [r | e].
  - destruct (ok r) eqn:Hok.
    + destruct (response_json r) as [data | e] eqn:Hjson.
      * destruct data; eexists;
          (split; [intros st;
                   unfold handleSendMessage_resume, tryCatchFinally, bind, await, ret;
                   rewrite Hok, Hjson; reflexivity
                  | split; reflexivity]).
      * eexists; (split; [intros s; apply (resume_json_rejected tem now r e s Hok Hjson)
                         | split; reflexivity]).
    + destruct (response_text r) as [t | e] eqn:Htext.
      * eexists; (split; [intros s; apply (resume_not_ok tem now r t s Hok Htext)
                         | split; reflexivity]).
      * eexists; (split; [intros s; apply (resume_not_ok_unreadable tem now r e s Hok Htext)
                         | split; reflexivity]).
  - eexists; (split; [intros s; reflexivity | split; reflexivity]).
Qed.

Lemma step_grows tem w e :
  exists added,
    messages (component (step tem w e)) = (added ++ messages (component w))%list
    /\ (length added <= 1)%nat.
Proof.
  destruct e as [value | now | k now fetched]; simpl.
  - exists []. split; [reflexivity | simpl; lia].
  - unfold onPress. destruct (isLoading (component w)).
    + exists []. split; [reflexivity | simpl; lia].
    + unfold handleSendMessage.
      destruct (string_dec (trim (inputText (component w))) "") as [E | E].
      * rewrite (handleSendMessage_call_rejected now _ _ E). simpl.
        exists []. split; [reflexivity | simpl; lia].
      * rewrite (handleSendMessage_call_accepted now _ _ E). simpl.
        eexists [_]. split; [reflexivity | simpl; lia].
  - destruct (nth_error (inFlight w) k).
    + destruct (resume_uniform tem now fetched) as (m & E & _).
      simpl. rewrite E. simpl. exists [m]. split; [reflexivity | simpl; lia].
    + exists []. split; [reflexivity | simpl; lia].
Qed.

(** X7.  The message list only grows at its front: over any run of events,
    from any screen, the list at the end is the list at the start with
    messages added in front of it, at most one for each event; no message
    is removed, moved or changed. *)
Theorem messages_only_grow tem events :
  forall w,
  exists added,
    messages (component (run tem events w)) = (added ++ messages (component w))%list
    /\ (length added <= length events)%nat.
Proof.
  induction events as [| e events IH]; intros w.
  - exists []. split; [reflexivity | simpl; lia].
  - change (run tem (e :: events) w) with (run tem events (step tem w e)).
    destruct (IH (step tem w e)) as (a2 & E2 & L2).
    destruct (step_grows tem w e) as (a1 & E1 & L1).
    exists (a2 ++ a1)%list. split.
    + rewrite E2, E1. apply app_assoc.
    + rewrite length_app. simpl. lia.
Qed.

Lemma step_coherent tem w e : coherent w -> coherent (step tem w e).
Proof.
  unfold coherent. intros Inv.
  destruct e as [value | now | k now fetched]; simpl.
  - exact Inv.
  - unfold onPress. destruct (isLoading (component w)) eqn:L.
    + rewrite L. exact Inv.
    + destruct Inv as [Ht Hnone]. unfold handleSendMessage.
      destruct (string_dec (trim (inputText (component w))) "") as [E | E].
      * rewrite (handleSendMessage_call_rejected now _ _ E). simpl.
        rewrite L, Hnone. split; [exact Ht | reflexivity].
      * rewrite (handleSendMessage_call_accepted now _ _ E). simpl.
        rewrite Hnone. do 3 eexists.
        repeat split; [exact Ht].
  - destruct (nth_error (inFlight w) k) as [q0 |] eqn:N; [| exact Inv].
    destruct (resume_uniform tem now fetched) as (m & E & Hm & _).
    simpl. rewrite E. simpl.
    destruct (isLoading (component w)) eqn:L.
    + destruct Inv as (u & older & q & Hmsg & Hu & Ht & Hq & _).
      rewrite Hq in N |- *. rewrite (nth_error_singleton _ _ _ N). simpl.
      split; [| reflexivity].
      rewrite Hmsg. simpl. unfold isBot, isUser. rewrite Hm, Hu. exact Ht.
    + destruct Inv as [_ Hnone]. rewrite Hnone in N. destruct k; discriminate.
Qed.

Lemma run_coherent tem events : forall w, coherent w -> coherent (run tem events w).
Proof.
  induction events as [| e events IH]; intros w Inv; simpl.
  - exact Inv.
  - apply IH. apply step_coherent. exact Inv.
Qed.

Lemma initialScreen_coherent : coherent initialScreen.
Proof. split; reflexivity. Qed.

(** X8.  In every state the screen reaches through its events the message
    list is made of complete turns, each bot reply directly in front of the
    user message it answers; while [isLoading] is up, and only then, one
    unanswered user message stands in front of them. *)
Theorem conversation_is_made_of_turns tem events :
  let s := component (run tem events initialScreen) in
  if isLoading s
  then exists u older,
         messages s = u :: older /\ sender u = user /\ turns older = true
  else turns (messages s) = true.
Proof.
  pose proof (run_coherent tem events _ initialScreen_coherent) as Inv.
  unfold coherent in Inv. cbv zeta.
  destruct (isLoading (component (run tem events initialScreen))).
  - destruct Inv as (u & older & q & Hmsg & Hu & Ht & _).
    exists u, older. auto.
  - apply Inv.
Qed.

(** X9.  In every state the screen reaches through its events, a request in
    flight is the one for the newest message: that message was sent by the
    user, its text is the question of the request, and the history of the
    request is the rest of the list, oldest first. *)
Theorem request_in_flight_matches_messages tem events q :
  let w := run tem events initialScreen in
  In q (inFlight w) ->
  exists u older,
    messages (component w) = u :: older
    /\ sender u = user
    /\ text u = JStr (question (body q))
    /\ history (body q) = rev older.
Proof.
  pose proof (run_coherent tem events _ initialScreen_coherent) as Inv.
  unfold coherent in Inv. cbv zeta. intros Hin.
  destruct (isLoading (component (run tem events initialScreen))).
  - destruct Inv as (u & older & q0 & Hmsg & Hu & _ & Hq & Htext & Hhist).
    rewrite Hq in Hin. destruct Hin as [<- | []].
    exists u, older. auto.
  - destruct Inv as [_ Hnone]. rewrite Hnone in Hin. destruct Hin.
Qed.

Lemma request_in_flight_matches_messages_witness :
  In {| url := BACKEND_URL;
        method := "POST";
        headers := [("Content-Type", "application/json")];
        body := {| question := "Hello"; history := [] |} |}
     (inFlight (run "TypeError" [ChangeText "  Hello "; Press 1000] initialScreen))
  /\ exists u older,
       messages (component
         (run "TypeError" [ChangeText "  Hello "; Press 1000] initialScreen))
       = u :: older
       /\ sender u = user
       /\ text u = JStr "Hello"
       /\ [] = rev older.
Proof.
  assert (H : In {| url := BACKEND_URL;
                    method := "POST";
                    headers := [("Content-Type", "application/json")];
                    body := {| question := "Hello"; history := [] |} |}
                 (inFlight (run "TypeError" [ChangeText "  Hello "; Press 1000]
                              initialScreen)))
    by (left; reflexivity).
  split; [exact H |].
  exact (request_in_flight_matches_messages "TypeError"
           [ChangeText "  Hello "; Press 1000] _ H).
Defined.

(** X10.  Typing and the arrival of the answer commute: whichever of the
    two the screen handles first, it ends in the same state, so what is
    typed while the exchange is in flight is kept and does not change the
    reply. *)
Theorem typing_commutes_with_settlement tem w value k now fetched :
  step tem (step tem w (ChangeText value)) (Settle k now fetched) =
  step tem (step tem w (Settle k now fetched)) (ChangeText value).
Proof.
  simpl. destruct (nth_error (inFlight w) k); [| reflexivity].
  destruct (resume_uniform tem now fetched) as (m & E & _).
  simpl. rewrite !E. reflexivity.
Qed.

(** X11.  Nothing but the settlement of the fetch lowers [isLoading]: from a
    screen where it is up, no run of typing and presses changes the flag,
    the message list or the exchanges in flight, so if the fetch never
    settles the send button stays disabled. *)
Theorem only_settlement_unlocks tem events :
  forall w,
  isLoading (component w) = true ->
  forallb (fun e => negb (isSettle e)) events = true ->
  isLoading (component (run tem events w)) = true
  /\ messages (component (run tem events w)) = messages (component w)
  /\ inFlight (run tem events w) = inFlight w.
Proof.
  induction events as [| e events IH]; intros w L H.
  - simpl. auto.
  - simpl in H. apply andb_true_iff in H. destruct H as [He H].
    change (run tem (e :: events) w) with (run tem events (step tem w e)).
    destruct e as [value | now | k now fetched]; [| | discriminate].
    + destruct (IH (step tem w (ChangeText value)) L H) as (A & B & C).
      auto.
    + assert (E : step tem w (Press now) = w) by (apply onPress_disabled; exact L).
      rewrite E. apply IH; assumption.
Qed.

Lemma only_settlement_unlocks_witness :
  isLoading (component {| component := waitingTyped; inFlight := [] |}) = true
  /\ isLoading (component
       (run "TypeError" [Press 2000; ChangeText "again"; Press 3000]
          {| component := waitingTyped; inFlight := [] |})) = true.
Proof.
  split; [reflexivity |].
  exact (proj1 (only_settlement_unlocks "TypeError"
                  [Press 2000; ChangeText "again"; Press 3000]
                  {| component := waitingTyped; inFlight := [] |}
                  eq_refl eq_refl)).
Defined.

(** ** When the ids are unique *)

Lemma toString_injective a b : toString a = toString b -> a = b.
Proof.
  unfold toString. intros H.
  assert (N : forall z, NilZero.int_of_string (NilZero.string_of_int (Z.to_int z))
                        = Some (Z.to_int z)).
  { intros z. apply NilZero.isi; intros E;
      pose proof (DecimalZ.of_to z) as R; rewrite E in R; simpl in R; subst z;
      discriminate. }
  apply DecimalZ.to_int_inj.
  pose proof (N a) as Na. rewrite H, (N b) in Na. congruence.
Qed.


Lemma stamped_later bound bound' w :
  (bound <= bound')%Z -> stamped bound w -> stamped bound' w.
Proof.
  intros Hle (stamps & E & N & F). exists stamps. repeat split; try assumption.
  eapply Forall_impl; [| exact F]. simpl. intros n Hn. lia.
Qed.

Lemma stamped_same bound w w' :
  messages (component w') = messages (component w) ->
  stamped bound w -> stamped bound w'.
Proof.
  intros Hm (stamps & E & N & F). exists stamps. rewrite Hm. auto.
Qed.

Lemma stamped_push bound n m w w' :
  messages (component w') = m :: messages (component w) ->
  id m = toString n ->
  (bound < n)%Z ->
  stamped bound w -> stamped n w'.
Proof.
  intros Hm Hid Hlt (stamps & E & N & F).
  exists (n :: stamps). rewrite Hm. simpl. rewrite Hid, E.
  split; [reflexivity |]. split.
  - constructor; [| exact N]. intros Hin.
    rewrite Forall_forall in F. specialize (F n Hin). lia.
  - constructor; [lia |]. eapply Forall_impl; [| exact F]. simpl. intros k Hk. lia.
Qed.

Lemma step_stamped tem last w e :
  stamped (last + 1) w ->
  match reading e with
  | Some now => (last + 2 <= now)%Z -> stamped (now + 1) (step tem w e)
  | None => stamped (last + 1) (step tem w e)
  end.
Proof.
  intros S. destruct e as [value | now | k now fetched]; simpl.
  - eapply stamped_same; [| exact S]. reflexivity.
  - intros Hnow. unfold onPress. destruct (isLoading (component w)).
    + apply (stamped_later (last + 1)); [lia | exact S].
    + unfold handleSendMessage.
      destruct (string_dec (trim (inputText (component w))) "") as [E | E].
      * rewrite (handleSendMessage_call_rejected now _ _ E).
        apply (stamped_later (last + 1)); [lia |].
        eapply stamped_same; [| exact S]. reflexivity.
      * rewrite (handleSendMessage_call_accepted now _ _ E).
        apply (stamped_later now); [lia |].
        eapply (stamped_push (last + 1) now); [| | | exact S];
          [reflexivity | reflexivity | lia].
  - intros Hnow. destruct (nth_error (inFlight w) k).
    + destruct (resume_uniform tem now fetched) as (m & E & _ & Hid).
      eapply (stamped_push (last + 1) (now + 1) m); [| exact Hid | lia | exact S].
      simpl. rewrite E. reflexivity.
    + apply (stamped_later (last + 1)); [lia | exact S].
Qed.

Lemma run_stamped tem events :
  forall last w,
  stamped (last + 1) w -> spaced last events ->
  exists last', stamped (last' + 1) (run tem events w).
Proof.
  induction events as [| e events IH]; intros last w S Sp.
  - exists last. exact S.
  - change (run tem (e :: events) w) with (run tem events (step tem w e)).
    pose proof (step_stamped tem last w e S) as St.
    simpl in Sp. destruct (reading e) as [now |].
    + destruct Sp as [Hnow Sp]. apply (IH now); [apply St; exact Hnow | exact Sp].
    + apply (IH last); assumption.
Qed.

Lemma stamped_NoDup bound w :
  stamped bound w -> NoDup (map id (messages (component w))).
Proof.
  intros (stamps & E & N & _). rewrite E.
  apply NoDup_map_NoDup_ForallPairs; [| exact N].
  intros a b _ _. apply toString_injective.
Qed.

(** X12.  When every reading of the clock the handler makes is at least two
    milliseconds after the one before it, the ids of the messages (which
    are also the keys [keyExtractor] gives the list) are pairwise distinct
    in every state the screen reaches. *)
Theorem ids_are_distinct_when_clock_is_spaced tem last events :
  spaced last events ->
  NoDup (map id (messages (component (run tem events initialScreen)))).
Proof.
  intros Sp.
  assert (S0 : stamped (last + 1) initialScreen).
  { exists []. repeat split; constructor. }
  destruct (run_stamped tem events last initialScreen S0 Sp) as [last' S].
  eapply stamped_NoDup. exact S.
Qed.

Lemma ids_are_distinct_when_clock_is_spaced_witness :
  spaced 0
    [ ChangeText "Hello"; Press 1000; ChangeText "b";
      Settle 0 1200 (Fulfilled (answerHi (Fulfilled "Hi"))); Press 1202 ]
  /\ NoDup (map id (messages (component
       (run "TypeError"
          [ ChangeText "Hello"; Press 1000; ChangeText "b";
            Settle 0 1200 (Fulfilled (answerHi (Fulfilled "Hi"))); Press 1202 ]
          initialScreen)))).
Proof.
  assert (H : spaced 0
    [ ChangeText "Hello"; Press 1000; ChangeText "b";
      Settle 0 1200 (Fulfilled (answerHi (Fulfilled "Hi"))); Press 1202 ]).
  { simpl. repeat split; lia. }
  split; [exact H |].
  exact (ids_are_distinct_when_clock_is_spaced "TypeError" 0%Z _ H).
Defined.

(** ** The rendered tree *)

Lemma renderMessage_legible host behind item :
  legible behind (renderMessage host item) = true.
Proof.
  destruct host as [[[|] |] w os], item as [i t [|]]; reflexivity.
Qed.

Lemma rows_legible host behind items :
  forallb (legible behind) (map (renderMessage host) items) = true.
Proof.
  induction items as [| item items IH]; cbn [map forallb]; [reflexivity |].
  rewrite renderMessage_legible. exact IH.
Qed.

(** The check is not vacuous: white text on a white background fails it. *)
Lemma legible_detects_clash :
  legible None
    (Node "View" [ ("style", PStyles [[("backgroundColor", SString "#FFFFFF")]]) ]
       [ Node "Text" [ ("style", PStyles [[("color", SString "#FFFFFF")]]) ]
           [ Content (JStr "hidden") ] ])
  = false.
Proof. reflexivity. Qed.

(** X13.  Whatever the system theme (light, dark or none), the window width,
    the platform and the state, nothing in the tree [App] renders is drawn
    in the colour of the background it stands on: not the header texts, the
    text and links of the bubbles, the typing indicator, the input text and
    its placeholder, nor the send icon. *)
Theorem nothing_is_drawn_in_its_background_colour host s :
  legible None (App host s) = true.
Proof.
  destruct host as [[[|] |] w os], s as [ms it [|]];
    unfold App;
    match goal with
    | |- context [map (renderMessage ?h) ?l] =>
        generalize (fun b => rows_legible h b l);
        generalize (map (renderMessage h) l)
    end;
    intros rows Hrows; cbn; rewrite Hrows; reflexivity.
Qed.

Lemma rows_propsOf host tag items :
  tag = "ActivityIndicator" \/ tag = "TouchableOpacity" ->
  flat_map (propsOf tag) (map (renderMessage host) items) = [].
Proof.
  intros Htag. induction items as [| item items IH]; cbn [map flat_map];
    [reflexivity |].
  rewrite IH.
  destruct Htag as [-> | ->], item as [i t [|]]; reflexivity.
Qed.

Lemma App_busy host s :
  length (propsOf "ActivityIndicator" (App host s)) = (if isLoading s then 1 else 0)%nat
  /\ map (assoc "disabled") (propsOf "TouchableOpacity" (App host s))
     = [Some (PBool (isLoading s))].
Proof.
  destruct s as [ms it loading]; unfold App; cbn [messages isLoading inputText].
  pose proof (rows_propsOf host "ActivityIndicator" ms (or_introl eq_refl)) as H1.
  pose proof (rows_propsOf host "TouchableOpacity" ms (or_intror eq_refl)) as H2.
  revert H1 H2. generalize (map (renderMessage host) ms). intros rows H1 H2.
  destruct loading; cbn; rewrite ?H1, ?H2; split; reflexivity.
Qed.

(** X14.  In every state the screen reaches through its events, the tree
    [App] renders shows the typing indicator exactly while an exchange is
    in flight (one activity indicator for the one request, none when there
    is none), and the send button is disabled exactly then. *)
Theorem rendering_follows_the_exchange tem host events :
  let w := run tem events initialScreen in
  length (propsOf "ActivityIndicator" (App host (component w)))
  = length (inFlight w)
  /\ map (assoc "disabled") (propsOf "TouchableOpacity" (App host (component w)))
     = [ Some (PBool (match inFlight w with [] => false | _ :: _ => true end)) ].
Proof.
  cbv zeta.
  pose proof (run_preserves tem events _ initialScreen_oneInFlight) as Inv.
  destruct (App_busy host (component (run tem events initialScreen))) as [B D].
  rewrite B, D.
  destruct Inv as [[L Hone] | [L Hnone]]; rewrite L.
  - destruct (length_one _ Hone) as [q Hq]. rewrite Hq. split; reflexivity.
  - rewrite Hnone. split; reflexivity.
Qed.

Lemma rows_contents host items :
  flat_map (contentsOf "Markdown") (map (renderMessage host) items)
  = map text (filter isBot items)
  /\ flat_map (contentsOf "Text") (map (renderMessage host) items)
     = map text (filter isUser items).
Proof.
  induction items as [| item items [IH1 IH2]]; cbn [map flat_map filter];
    [split; reflexivity |].
  rewrite IH1, IH2.
  destruct item as [i t [|]]; split; reflexivity.
Qed.

(** X15.  Markdown is applied to the texts of the bot messages and to
    nothing else: the values [App] hands to Markdown elements are the texts
    of the bot messages, in the order of [messages], and the texts of the
    user messages are handed to plain Text elements, between the two header
    lines and the typing line. *)
Theorem markdown_renders_bot_texts_only host s :
  contentsOf "Markdown" (App host s) = map text (filter isBot (messages s))
  /\ contentsOf "Text" (App host s)
     = ([ JStr "Lívia AI"; JStr "Assistente do BSI - IF Baiano" ]
        ++ map text (filter isUser (messages s))
        ++ (if isLoading s then [ JStr "Lívia está digitando..." ] else []))%list.
Proof.
  destruct s as [ms it loading]; unfold App; cbn [messages isLoading inputText].
  destruct (rows_contents host ms) as [H1 H2].
  revert H1 H2. generalize (map (renderMessage host) ms). intros rows H1 H2.
  destruct loading; cbn; rewrite ?H1, ?H2, ?app_nil_r; split; reflexivity.
Qed.
